(** * Streaming transcription with voice-activity events

    A shallow embedding of
    [speech/snippets/transcribe_streaming_voice_activity_events.py]:
    the chunking of the audio buffer, the request generator handed to the
    streaming transport, and the loop that consumes the responses.

    Python integers are modelled as [Z], [bytes] as [list byte], [str] as
    [string], generators over finite data as the list of the values they
    yield, and code that prints or raises in a small state-and-exception
    monad.  The transport is given by the events of a call: its pulls
    from the request generator, the responses it delivers, its failure. *)

From Stdlib Require Import String Strings.Byte ZArith Lia Bool Arith List.
Import ListNotations.

Local Open Scope list_scope.

(** ** Python values and built-ins *)

Abbreviation bytes := (list byte) (only parsing).

(** The exceptions of a call: the two the function body raises by itself,
    and whatever the transport raises while the responses are iterated. *)
Inductive exn : Type :=
| ValueError       (* range() arg 3 must not be zero *)
| IndexError       (* list index out of range *)
| TransportError.  (* raised by the response iterator *)

Inductive outcome (A : Type) : Type :=
| Return (a : A)
| Raise (e : exn).
Arguments Return {A} a.
Arguments Raise {A} e.

(** [len(x)] *)
Definition len {A : Type} (l : list A) : Z := Z.of_nat (length l).

(** Number of items of [range(start, stop, step)] for [step <> 0]. *)
Definition range_length (start stop step : Z) : nat :=
  if (0 <? step)%Z then
    if (start <? stop)%Z then Z.to_nat (1 + (stop - 1 - start) / step) else 0
  else
    if (stop <? start)%Z then Z.to_nat (1 + (start - 1 - stop) / (- step)) else 0.

(** [range(start, stop, step)]: a zero step is a [ValueError]; otherwise the
    items are [start + i * step]. *)
Definition py_range (start stop step : Z) : outcome (list Z) :=
  if (step =? 0)%Z then Raise ValueError
  else Return (map (fun i => (start + Z.of_nat i * step)%Z)
                   (seq 0 (range_length start stop step))).

(** A slice bound is taken from the end when negative, then clipped to
    [0 .. len]. *)
Definition clamp_index (n i : Z) : Z :=
  if (i <? 0)%Z then Z.max 0 (i + n) else Z.min i n.

(** [l[start : stop]] *)
Definition py_slice {A : Type} (l : list A) (start stop : Z) : list A :=
  let lo := clamp_index (len l) start in
  let hi := clamp_index (len l) stop in
  firstn (Z.to_nat (hi - lo)) (skipn (Z.to_nat lo) l).

(** ** Messages of the speech service *)

Module cloud_speech.

Inductive AutoDetectDecodingConfig : Type := AutoDetectDecodingConfig_ctor.

(** The [decoding_config] oneof of a recognition config. *)
Inductive decoding_config : Type :=
| decoding_unset
| auto_decoding_config (c : AutoDetectDecodingConfig).

Record RecognitionConfig : Type := {
  decoding : decoding_config;
  language_codes : list string;
  model : string
}.

Record StreamingRecognitionFeatures : Type := {
  enable_voice_activity_events : bool
}.

Record StreamingRecognitionConfig : Type := {
  config : RecognitionConfig;
  streaming_features : StreamingRecognitionFeatures
}.

(** The [streaming_request] oneof: a request carries a configuration, a
    chunk of audio, or neither. *)
Inductive streaming_request : Type :=
| request_unset
| streaming_config (c : StreamingRecognitionConfig)
| audio (a : bytes).

Record StreamingRecognizeRequest : Type := {
  recognizer : string;
  payload : streaming_request
}.

Inductive SpeechEventType : Type :=
| SPEECH_EVENT_TYPE_UNSPECIFIED
| END_OF_SINGLE_UTTERANCE
| SPEECH_ACTIVITY_BEGIN
| SPEECH_ACTIVITY_END.

Definition SpeechEventType_eqb (a b : SpeechEventType) : bool :=
  match a, b with
  | SPEECH_EVENT_TYPE_UNSPECIFIED, SPEECH_EVENT_TYPE_UNSPECIFIED
  | END_OF_SINGLE_UTTERANCE, END_OF_SINGLE_UTTERANCE
  | SPEECH_ACTIVITY_BEGIN, SPEECH_ACTIVITY_BEGIN
  | SPEECH_ACTIVITY_END, SPEECH_ACTIVITY_END => true
  | _, _ => false
  end.

Record SpeechRecognitionAlternative : Type := {
  transcript : string
}.

Record StreamingRecognitionResult : Type := {
  alternatives : list SpeechRecognitionAlternative
}.

Record StreamingRecognizeResponse : Type := {
  results : list StreamingRecognitionResult;
  speech_event_type : SpeechEventType
}.

End cloud_speech.
Import cloud_speech.

Definition is_config_request (r : StreamingRecognizeRequest) : bool :=
  match payload r with streaming_config _ => true | _ => false end.

Definition is_audio_request (r : StreamingRecognizeRequest) : bool :=
  match payload r with audio _ => true | _ => false end.

Definition audio_of (r : StreamingRecognizeRequest) : option bytes :=
  match payload r with audio a => Some a | _ => None end.

(** ** Chunking (lines 43-47) *)

(** [chunk_length = len(content) // 5] *)
Definition chunk_length (content : bytes) : Z := (len content / 5)%Z.

(** The list comprehension bound to [stream]: it is built eagerly, so a
    failing [range] call raises before anything else happens. *)
Definition stream (content : bytes) : outcome (list bytes) :=
  match py_range 0 (len content) (chunk_length content) with
  | Raise e => Raise e
  | Return starts =>
      Return (map (fun start =>
                     py_slice content start (start + chunk_length content))
                  starts)
  end.

(** ** Requests (lines 48-73) *)

(** The generator expression bound to [audio_requests]. *)
Definition audio_requests (chunks : list bytes) : list StreamingRecognizeRequest :=
  map (fun a => {| recognizer := EmptyString; payload := audio a |}) chunks.

Definition recognition_config : RecognitionConfig :=
  {| decoding := auto_decoding_config AutoDetectDecodingConfig_ctor;
     language_codes := ["en-US"%string];
     model := "long"%string |}.

Definition streaming_features_value : StreamingRecognitionFeatures :=
  {| enable_voice_activity_events := true |}.

Definition streaming_config_value : StreamingRecognitionConfig :=
  {| config := recognition_config;
     streaming_features := streaming_features_value |}.

Definition config_request (project_id : string) : StreamingRecognizeRequest :=
  {| recognizer :=
       ("projects/" ++ project_id ++ "/locations/global/recognizers/_")%string;
     payload := streaming_config streaming_config_value |}.

(** The inner generator [requests]: [yield config], then
    [yield from audio]. *)
Definition requests (config : StreamingRecognizeRequest)
    (audio : list StreamingRecognizeRequest) : list StreamingRecognizeRequest :=
  config :: audio.

(** ** Effects: printing, the local list [responses], the transport *)

(** What a run can change: the local list [responses], the lines written
    to standard output, and the requests handed to the transport. *)
Record state : Type := {
  responses : list StreamingRecognizeResponse;
  stdout : list string;
  wire : list StreamingRecognizeRequest
}.

Definition initial_state : state :=
  {| responses := []; stdout := []; wire := [] |}.

Definition M (A : Type) : Type := state -> outcome A * state.

Definition ret {A : Type} (a : A) : M A := fun s => (Return a, s).

Definition bind {A B : Type} (m : M A) (k : A -> M B) : M B :=
  fun s =>
    match m s with
    | (Return a, s') => k a s'
    | (Raise e, s') => (Raise e, s')
    end.

Definition lift {A : Type} (o : outcome A) : M A := fun s => (o, s).

Declare Scope py_scope.
Delimit Scope py_scope with py.
Notation "x <- m ;; k" := (bind m (fun x => k))
  (at level 61, m at next level, right associativity) : py_scope.
Notation "m ;; k" := (bind m (fun _ => k))
  (at level 61, right associativity) : py_scope.
Local Open Scope py_scope.

(** [print(line)] *)
Definition print (line : string) : M unit :=
  fun s => (Return tt,
            {| responses := responses s;
               stdout := stdout s ++ [line];
               wire := wire s |}).

(** [responses = []] *)
Definition responses_reset : M unit :=
  fun s => (Return tt,
            {| responses := []; stdout := stdout s; wire := wire s |}).

(** [responses.append(response)] *)
Definition responses_append (response : StreamingRecognizeResponse) : M unit :=
  fun s => (Return tt,
            {| responses := responses s ++ [response];
               stdout := stdout s;
               wire := wire s |}).

(** Reading the variable [responses]. *)
Definition responses_get : M (list StreamingRecognizeResponse) :=
  fun s => (Return (responses s), s).

(** [l[i]] on a list or a repeated field: out of range is an
    [IndexError]. *)
Definition py_getitem {A : Type} (l : list A) (i : Z) : outcome A :=
  let j := if (i <? 0)%Z then (i + len l)%Z else i in
  if (j <? 0)%Z then Raise IndexError
  else match nth_error l (Z.to_nat j) with
       | Some x => Return x
       | None => Raise IndexError
       end.

(** [for x in l: body(x)] *)
Fixpoint for_each {A : Type} (l : list A) (body : A -> M unit) : M unit :=
  match l with
  | [] => ret tt
  | x :: xs => body x ;; for_each xs body
  end.

(** ** The response loop (lines 79-95) *)

(** The inner loop body, line 93. *)
Definition print_transcript (result : StreamingRecognitionResult) : M unit :=
  top <- lift (py_getitem (alternatives result) 0) ;;
  print ("Transcript: " ++ transcript top)%string.

(** The body of [for response in responses_iterator], lines 81-93. *)
Definition loop_body (response : StreamingRecognizeResponse) : M unit :=
  responses_append response ;;
  (if SpeechEventType_eqb (speech_event_type response) SPEECH_ACTIVITY_BEGIN
   then print "Speech started."%string else ret tt) ;;
  (if SpeechEventType_eqb (speech_event_type response) SPEECH_ACTIVITY_END
   then print "Speech ended."%string else ret tt) ;;
  for_each (results response) print_transcript.

(** Lines 79-95: the loop over the responses and the [return]. *)
Definition consume_response_stream
    (responses_iterator : list StreamingRecognizeResponse)
  : M (list StreamingRecognizeResponse) :=
  responses_reset ;;
  for_each responses_iterator loop_body ;;
  responses_get.

(** ** The whole function *)

(** What happens, in order, while the response iterator is consumed: the
    transport takes the next request from the request generator, the
    iterator yields a response, or the iterator raises.  The requests are
    generators (lines 48-50 and 71-73): a request exists only once the
    transport has pulled it. *)
Inductive transport_event : Type :=
| Pull
| Deliver (response : StreamingRecognizeResponse)
| Fail.

(** The transport puts a pulled request on the wire. *)
Definition send (request : StreamingRecognizeRequest) : M unit :=
  fun s => (Return tt,
            {| responses := responses s;
               stdout := stdout s;
               wire := wire s ++ [request] |}).

(** The loop of line 80 over a transport-backed iterator.  [pending] is
    what the request generator has not yielded yet; a pull from the
    exhausted generator sends nothing.  The end of the events is the end of
    the response stream; an exception of the loop body or of the iterator
    ends the loop at once, so that later events do not happen. *)
Fixpoint iterate (events : list transport_event)
    (pending : list StreamingRecognizeRequest) : M unit :=
  match events with
  | [] => ret tt
  | Pull :: rest =>
      match pending with
      | [] => iterate rest []
      | request :: later => send request ;; iterate rest later
      end
  | Deliver response :: rest => loop_body response ;; iterate rest pending
  | Fail :: _ => lift (Raise TransportError)
  end.

Section Transport.

(** The speech service behind [client.streaming_recognize]: for a request
    stream, the events of the call. *)
Variable service :
  list StreamingRecognizeRequest -> list transport_event.

(** [client.streaming_recognize(requests=...)]: the call returns the
    response iterator; by itself it sends nothing. *)
Definition streaming_recognize (reqs : list StreamingRecognizeRequest)
  : M (list transport_event) :=
  ret (service reqs).

(** The function body from line 43 on; [content] is what [f.read()]
    returned. *)
Definition transcribe_streaming_voice_activity_events
    (project_id : string) (content : bytes)
  : M (list StreamingRecognizeResponse) :=
  chunks <- lift (stream content) ;;
  let request_generator :=
    requests (config_request project_id) (audio_requests chunks) in
  responses_iterator <- streaming_recognize request_generator ;;
  responses_reset ;;
  iterate responses_iterator request_generator ;;
  responses_get.

End Transport.

(** ** Auxiliary definitions used in the statements *)

(** [ceil (a / b)] on integers, for [0 < b]. *)
Definition ceil_div (a b : Z) : Z := ((a + b - 1) / b)%Z.

(** The chunks over natural offsets: chunk [i] is the window of width [c]
    that starts at offset [i * c]. *)
Definition windows {A : Type} (l : list A) (c n : nat) : list (list A) :=
  map (fun i => firstn c (skipn (i * c) l)) (seq 0 n).

(** A result is printable when the index [0] exists. *)
Definition has_alternative (result : StreamingRecognitionResult) : bool :=
  match alternatives result with [] => false | _ :: _ => true end.

Definition well_formed (response : StreamingRecognizeResponse) : bool :=
  forallb has_alternative (results response).

(** The lines one response makes the loop body print, read off a run of
    the body from the initial state. *)
Definition lines_of_response (response : StreamingRecognizeResponse)
  : list string :=
  stdout (snd (loop_body response initial_state)).

Definition outcome_of_response (response : StreamingRecognizeResponse)
  : outcome unit :=
  fst (loop_body response initial_state).

(** The lines the two event tests print for an event type. *)
Definition event_lines (e : SpeechEventType) : list string :=
  (if SpeechEventType_eqb e SPEECH_ACTIVITY_BEGIN
   then ["Speech started."%string] else []) ++
  (if SpeechEventType_eqb e SPEECH_ACTIVITY_END
   then ["Speech ended."%string] else []).

(** The inner loop as a function of the results alone: how it ends and the
    lines it prints on the way. *)
Fixpoint transcript_lines (rs : list StreamingRecognitionResult)
  : outcome unit * list string :=
  match rs with
  | [] => (Return tt, [])
  | result :: rest =>
      match alternatives result with
      | [] => (Raise IndexError, [])
      | top :: _ =>
          (fst (transcript_lines rest),
           ("Transcript: " ++ transcript top)%string
             :: snd (transcript_lines rest))
      end
  end.

(** Sample data. *)
Definition seven_bytes : bytes := [x00; x01; x02; x03; x04; x05; x06].
Definition ten_bytes : bytes :=
  [x00; x01; x02; x03; x04; x05; x06; x07; x08; x09].
Definition three_bytes : bytes := [x0a; x0b; x0c].

Definition alternative (text : string) : SpeechRecognitionAlternative :=
  {| transcript := text |}.

Definition begin_response : StreamingRecognizeResponse :=
  {| results := []; speech_event_type := SPEECH_ACTIVITY_BEGIN |}.
Definition end_response : StreamingRecognizeResponse :=
  {| results := []; speech_event_type := SPEECH_ACTIVITY_END |}.
Definition transcript_response (text : string) : StreamingRecognizeResponse :=
  {| results := [ {| alternatives := [alternative text] |} ];
     speech_event_type := SPEECH_EVENT_TYPE_UNSPECIFIED |}.
Definition empty_result_response : StreamingRecognizeResponse :=
  {| results := [ {| alternatives := [] |} ];
     speech_event_type := SPEECH_EVENT_TYPE_UNSPECIFIED |}.

(** The line the inner loop prints for a result, from its top
    alternative. *)
Definition transcript_line (result : StreamingRecognitionResult) : string :=
  ("Transcript: " ++
   match alternatives result with
   | top :: _ => transcript top
   | [] => EmptyString
   end)%string.

(** The event line by case on the event type. *)
Definition event_line (e : SpeechEventType) : list string :=
  match e with
  | SPEECH_ACTIVITY_BEGIN => ["Speech started."%string]
  | SPEECH_ACTIVITY_END => ["Speech ended."%string]
  | SPEECH_EVENT_TYPE_UNSPECIFIED | END_OF_SINGLE_UTTERANCE => []
  end.

(** The responses a list of events delivers, in order. *)
Fixpoint delivered (events : list transport_event)
  : list StreamingRecognizeResponse :=
  match events with
  | [] => []
  | Deliver response :: rest => response :: delivered rest
  | _ :: rest => delivered rest
  end.

(** No event is a failure of the transport. *)
Fixpoint no_failure (events : list transport_event) : bool :=
  match events with
  | [] => true
  | Fail :: _ => false
  | _ :: rest => no_failure rest
  end.

(** The number of pulls among the events. *)
Fixpoint pulls (events : list transport_event) : nat :=
  match events with
  | [] => 0
  | Pull :: rest => S (pulls rest)
  | _ :: rest => pulls rest
  end.

(** The request stream built for a project and a chunk list. *)
Definition request_stream (project_id : string) (chunks : list bytes)
  : list StreamingRecognizeRequest :=
  requests (config_request project_id) (audio_requests chunks).

Definition six_bytes : bytes := [x10; x11; x12; x13; x14; x15].

Definition two_alternatives_response : StreamingRecognizeResponse :=
  {| results := [ {| alternatives := [alternative "first"; alternative "second"] |};
                  {| alternatives := [alternative "third"] |} ];
     speech_event_type := SPEECH_ACTIVITY_END |}.

Definition partly_printed_response : StreamingRecognizeResponse :=
  {| results := [ {| alternatives := [alternative "kept"] |};
                  {| alternatives := [] |};
                  {| alternatives := [alternative "lost"] |} ];
     speech_event_type := SPEECH_ACTIVITY_BEGIN |}.

(** * Properties *)

(** ** Slices and ranges *)

Section Windows.

Context {A : Type}.
Implicit Types (l : list A) (c n i : nat).

Lemma py_slice_window l (a c : nat) :
  py_slice l (Z.of_nat a) (Z.of_nat a + Z.of_nat c) = firstn c (skipn a l).
Proof.
  unfold py_slice, clamp_index, len.
  destruct (Z.ltb_spec (Z.of_nat a) 0); [lia|].
  destruct (Z.ltb_spec (Z.of_nat a + Z.of_nat c) 0); [lia|].
  destruct (le_lt_dec a (length l)) as [Hle|Hgt].
  - rewrite (Z.min_l (Z.of_nat a)) by lia. rewrite Nat2Z.id.
    destruct (le_lt_dec (a + c) (length l)) as [Hin|Hout].
    + rewrite Z.min_l by lia. f_equal. lia.
    + rewrite Z.min_r by lia.
      rewrite !firstn_all2; try reflexivity; rewrite length_skipn; lia.
  - rewrite !Z.min_r by lia. rewrite Z.sub_diag. simpl.
    rewrite (skipn_all2 l) by lia. now rewrite firstn_nil.
Qed.

Lemma windows_succ l c n :
  windows l c (S n) = firstn c l :: windows (skipn c l) c n.
Proof.
  unfold windows. simpl. rewrite <- seq_shift, map_map.
  f_equal. apply map_ext. intros i.
  rewrite skipn_skipn. do 2 f_equal. simpl. lia.
Qed.

Lemma length_windows l c n : length (windows l c n) = n.
Proof. unfold windows. now rewrite length_map, length_seq. Qed.

Lemma nth_windows l c n i :
  i < n -> nth i (windows l c n) [] = firstn c (skipn (i * c) l).
Proof.
  intros Hi. unfold windows.
  set (window := fun k => firstn c (skipn (k * c) l)).
  rewrite (nth_indep _ [] (window 0))
    by (rewrite length_map, length_seq; exact Hi).
  rewrite map_nth, seq_nth by exact Hi. reflexivity.
Qed.

Lemma firstn_windows i : forall l c n,
  i <= n -> firstn i (windows l c n) = windows l c i.
Proof.
  induction i as [|i IH]; intros l c n Hi.
  - reflexivity.
  - destruct n as [|n]; [lia|].
    rewrite !windows_succ. simpl. f_equal. apply IH. lia.
Qed.

(** The first [n] windows, glued together, are the first [n * c]
    elements: consecutive windows neither overlap nor leave a gap. *)
Lemma concat_windows_prefix n : forall l c,
  concat (windows l c n) = firstn (n * c) l.
Proof.
  induction n as [|n IH]; intros l c.
  - reflexivity.
  - rewrite windows_succ. simpl. rewrite IH, firstn_skipn_comm.
    rewrite <- (firstn_skipn c (firstn (c + n * c) l)) at 2.
    f_equal. rewrite firstn_firstn. f_equal. lia.
Qed.

(** Windows that reach the end of the list put it back together. *)
Lemma concat_windows n l c :
  length l <= n * c -> concat (windows l c n) = l.
Proof.
  intros Hlen. rewrite concat_windows_prefix. now apply firstn_all2.
Qed.

Lemma length_window l c i :
  length (firstn c (skipn (i * c) l)) = Nat.min c (length l - i * c).
Proof. now rewrite length_firstn, length_skipn. Qed.

End Windows.

(** ** The chunking step *)

Lemma len_nonneg {A : Type} (l : list A) : (0 <= len l)%Z.
Proof. unfold len. lia. Qed.

(** With a positive chunk length the comprehension yields the windows of
    that width, one per item of the range. *)
Lemma stream_windows (content : bytes) :
  (0 < chunk_length content)%Z ->
  stream content =
  Return (windows content (Z.to_nat (chunk_length content))
            (range_length 0 (len content) (chunk_length content))).
Proof.
  intros Hc. unfold stream, py_range.
  destruct (Z.eqb_spec (chunk_length content) 0) as [E|_]; [lia|].
  rewrite map_map. unfold windows. f_equal. apply map_ext. intros i.
  rewrite <- (Z2Nat.id (chunk_length content)) at 1 2 3 by lia.
  rewrite Z.add_0_l, <- Nat2Z.inj_mul. apply py_slice_window.
Qed.

(** The range has [ceil (L / c)] items: the offsets [i * c] below [L]. *)
Lemma range_length_ceil (L c : Z) :
  (0 < c)%Z -> (0 < L)%Z ->
  Z.of_nat (range_length 0 L c) = ceil_div L c /\
  ((Z.of_nat (range_length 0 L c) - 1) * c < L
   <= Z.of_nat (range_length 0 L c) * c)%Z.
Proof.
  intros Hc HL. unfold range_length, ceil_div.
  destruct (Z.ltb_spec 0 c); [|lia].
  destruct (Z.ltb_spec 0 L); [|lia].
  rewrite Z.sub_0_r.
  assert (Hq : (0 <= (L - 1) / c)%Z) by (apply Z.div_pos; lia).
  rewrite Z2Nat.id by lia.
  replace (L + c - 1)%Z with (L - 1 + 1 * c)%Z by lia.
  rewrite Z.div_add by lia.
  pose proof (Z.mul_div_le (L - 1) c Hc).
  pose proof (Z.mul_succ_div_gt (L - 1) c Hc).
  split; [lia | nia].
Qed.

Lemma chunk_length_pos_len (content : bytes) :
  (0 < chunk_length content)%Z -> (5 <= len content)%Z.
Proof.
  unfold chunk_length. intros Hc.
  destruct (Z.lt_ge_cases (len content) 5) as [Hlt|Hge]; [|exact Hge].
  rewrite Z.div_small in Hc by (pose proof (len_nonneg content); lia). lia.
Qed.

(** Facts shared by the theorems on the chunking step: the shape of the
    chunk list in natural numbers. *)
Lemma stream_shape (content : bytes) :
  (0 < chunk_length content)%Z ->
  exists c n : nat,
    Z.of_nat c = chunk_length content /\
    Z.of_nat n = ceil_div (len content) (chunk_length content) /\
    0 < c /\ (n - 1) * c < length content <= n * c /\
    stream content = Return (windows content c n).
Proof.
  intros Hc. pose proof (chunk_length_pos_len content Hc) as HL.
  destruct (range_length_ceil (len content) (chunk_length content) Hc)
    as [Hn [Hlo Hhi]]; [lia|].
  exists (Z.to_nat (chunk_length content)),
         (range_length 0 (len content) (chunk_length content)).
  rewrite stream_windows by exact Hc.
  rewrite Z2Nat.id by lia.
  set (n := range_length 0 (len content) (chunk_length content)) in *.
  assert (Hc' : Z.of_nat (Z.to_nat (chunk_length content))
                = chunk_length content) by (apply Z2Nat.id; lia).
  set (c := Z.to_nat (chunk_length content)) in *.
  rewrite <- Hc' in Hlo, Hhi. clearbody n c. unfold len in Hlo, Hhi, HL.
  assert (Hlo' : (n - 1) * c < length content).
  { destruct n as [|k]; [simpl in *; lia|].
    replace (S k - 1) with k by lia.
    replace (Z.of_nat (S k) - 1)%Z with (Z.of_nat k) in Hlo by lia.
    apply Nat2Z.inj_lt. now rewrite Nat2Z.inj_mul. }
  assert (Hhi' : length content <= n * c).
  { apply Nat2Z.inj_le. now rewrite Nat2Z.inj_mul. }
  repeat split; try assumption; try reflexivity; lia.
Qed.

(** C1. When [len(content) // 5 > 0], the comprehension succeeds and its
    chunks, concatenated in order, are the buffer itself.  Chunk [i] is the
    slice taken at offset [i * chunk_length], every such offset lies below
    the length, the offsets stop only once the length is reached, and the
    chunks before chunk [i] hold exactly [i * chunk_length] bytes, so that
    each chunk starts where the previous one ended: no gap, no overlap. *)
Theorem stream_concat_roundtrip (content : bytes) :
  (0 < chunk_length content)%Z ->
  exists chunks,
    stream content = Return chunks /\
    concat chunks = content /\
    (forall i, i < length chunks ->
       (Z.of_nat i * chunk_length content < len content)%Z /\
       nth i chunks [] =
         py_slice content (Z.of_nat i * chunk_length content)
           (Z.of_nat i * chunk_length content + chunk_length content) /\
       len (concat (firstn i chunks))
         = (Z.of_nat i * chunk_length content)%Z) /\
    (len content <= len chunks * chunk_length content)%Z.
Proof.
  intros Hc.
  destruct (stream_shape content Hc) as (c & n & Ec & _ & Hpos & [Hlo Hhi] & Hs).
  exists (windows content c n). split; [exact Hs|].
  split; [now apply concat_windows|].
  unfold len. rewrite <- Ec. split.
  - intros i Hi. rewrite length_windows in Hi.
    assert (Hic : i * c < length content) by nia.
    rewrite <- !Nat2Z.inj_mul.
    split; [apply Nat2Z.inj_lt; exact Hic|].
    split.
    + rewrite py_slice_window. now apply nth_windows.
    + f_equal. rewrite firstn_windows by lia.
      rewrite concat_windows_prefix, length_firstn. lia.
  - rewrite length_windows, <- Nat2Z.inj_mul. apply Nat2Z.inj_le. exact Hhi.
Qed.

Lemma stream_concat_roundtrip_witness :
  (0 < chunk_length seven_bytes)%Z /\
  exists chunks,
    stream seven_bytes = Return chunks /\ concat chunks = seven_bytes.
Proof.
  assert (H : (0 < chunk_length seven_bytes)%Z) by reflexivity.
  split; [exact H|].
  destruct (stream_concat_roundtrip seven_bytes H) as (chunks & Hs & Hcat & _).
  exists chunks. split; assumption.
Defined.

(** Count and lengths of the chunks. *)
Lemma stream_chunk_count (content : bytes) :
  (0 < chunk_length content)%Z ->
  exists chunks,
    stream content = Return chunks /\
    len chunks = ceil_div (len content) (chunk_length content) /\
    len (audio_requests chunks) = len chunks /\
    (forall i, i + 1 < length chunks ->
       len (nth i chunks []) = chunk_length content) /\
    (0 < len (nth (length chunks - 1) chunks []) <= chunk_length content)%Z /\
    ((len (nth (length chunks - 1) chunks []) < chunk_length content)%Z <->
     (len content mod chunk_length content <> 0)%Z).
Proof.
  intros Hc.
  destruct (stream_shape content Hc) as (c & n & Ec & En & Hpos & [Hlo Hhi] & Hs).
  exists (windows content c n). split; [exact Hs|].
  assert (Hn : 0 < n) by (destruct n; simpl in *; lia).
  assert (Hnc : n * c = (n - 1) * c + c)
    by (destruct n; [lia | simpl; rewrite Nat.sub_0_r; lia]).
  assert (Hlast : length (nth (n - 1) (windows content c n) [])
                  = length content - (n - 1) * c).
  { rewrite nth_windows by lia. rewrite length_window. lia. }
  unfold audio_requests, len in *.
  rewrite length_map, length_windows, Hlast, <- Ec.
  split; [rewrite Ec; exact En|]. split; [reflexivity|].
  split; [|split].
  - intros i Hi. rewrite nth_windows by lia. rewrite length_window.
    f_equal. nia.
  - lia.
  - rewrite <- Nat2Z.inj_mod.
    assert (Hmod : length content mod c = 0 <-> length content = n * c).
    { split; intros H.
      - apply Nat.Div0.mod_divides in H. destruct H as [k Hk].
        rewrite Hk, (Nat.mul_comm c k) in Hlo, Hhi.
        apply Nat.mul_lt_mono_pos_r in Hlo; [|exact Hpos].
        apply Nat.mul_le_mono_pos_r in Hhi; [|exact Hpos].
        replace k with n in Hk by lia. lia.
      - rewrite H. apply Nat.Div0.mod_mul. }
    lia.
Qed.

(** C7, as stated, fails: a buffer of seven bytes has chunk length [1] and
    is cut into seven chunks, not five. *)
Lemma stream_five_parts_counterexample :
  seven_bytes <> [] /\
  (0 < chunk_length seven_bytes)%Z /\
  stream seven_bytes
    = Return [[x00]; [x01]; [x02]; [x03]; [x04]; [x05]; [x06]] /\
  ~ (exists chunks, stream seven_bytes = Return chunks /\ length chunks = 5).
Proof.
  split; [discriminate|]. split; [reflexivity|]. split; [reflexivity|].
  intros (chunks & Hs & Hlen).
  assert (E : stream seven_bytes
              = Return [[x00]; [x01]; [x02]; [x03]; [x04]; [x05]; [x06]])
    by reflexivity.
  rewrite E in Hs. injection Hs as <-. discriminate Hlen.
Qed.

(** C7, amended.  When [len(content) // 5 > 0] the number of chunks is
    [5 + ceil ((L mod 5) / (L // 5))]: it is five exactly when five divides
    [L], and otherwise lies between six and nine. *)
Theorem stream_count_five (content : bytes) :
  (0 < chunk_length content)%Z ->
  exists chunks,
    stream content = Return chunks /\
    len chunks
      = (5 + ceil_div (len content mod 5) (chunk_length content))%Z /\
    (len chunks = 5%Z <-> (len content mod 5 = 0)%Z) /\
    (5 <= len chunks <= 9)%Z.
Proof.
  intros Hc.
  destruct (stream_shape content Hc) as (c & n & _ & En & _ & _ & Hs).
  exists (windows content c n). split; [exact Hs|].
  unfold len at 1 3 5 6. rewrite length_windows, En.
  unfold chunk_length in *. unfold ceil_div.
  set (L := len content) in *. set (q := (L / 5)%Z) in *.
  assert (HL : L = (5 * q + L mod 5)%Z) by (apply Z.div_mod; lia).
  assert (Hr : (0 <= L mod 5 < 5)%Z) by (apply Z.mod_pos_bound; lia).
  set (r := (L mod 5)%Z) in *.
  replace (L + q - 1)%Z with (5 * q + (r + q - 1))%Z by lia.
  rewrite Z.div_add_l by lia.
  assert (Hlo : (0 <= (r + q - 1) / q)%Z) by (apply Z.div_pos; lia).
  assert (Hhi : ((r + q - 1) / q < 5)%Z)
    by (apply Z.div_lt_upper_bound; lia).
  split; [reflexivity|]. split; [|lia].
  split; intros H.
  - assert (Hz : ((r + q - 1) / q = 0)%Z) by lia.
    apply Z.div_small_iff in Hz; lia.
  - rewrite H. rewrite Z.div_small by lia. lia.
Qed.

Lemma stream_count_five_witness :
  (0 < chunk_length ten_bytes)%Z /\
  exists chunks, stream ten_bytes = Return chunks /\ len chunks = 5%Z.
Proof.
  assert (H : (0 < chunk_length ten_bytes)%Z) by reflexivity.
  split; [exact H|].
  destruct (stream_count_five ten_bytes H) as (chunks & Hs & _ & Hfive & _).
  exists chunks. split; [exact Hs|]. apply Hfive. reflexivity.
Defined.

(** ** Buffers shorter than five bytes *)

(** C6. For a buffer of fewer than five bytes, the empty one included, the
    chunk length is [0], [range] raises [ValueError] while the
    comprehension is built, and the whole function ends with that exception
    in an unchanged state: nothing was put on the wire, nothing printed.
    The exception passes through unhandled. *)
Theorem short_buffer_raises
    (service : list StreamingRecognizeRequest -> list transport_event)
    (project_id : string) (content : bytes) (s : state) :
  (len content < 5)%Z ->
  chunk_length content = 0%Z /\
  stream content = Raise ValueError /\
  transcribe_streaming_voice_activity_events service project_id content s
    = (Raise ValueError, s).
Proof.
  intros Hlt.
  assert (Hc : chunk_length content = 0%Z).
  { unfold chunk_length. apply Z.div_small.
    pose proof (len_nonneg content). lia. }
  assert (Hs : stream content = Raise ValueError).
  { unfold stream, py_range. rewrite Hc. reflexivity. }
  repeat split; try assumption.
  unfold transcribe_streaming_voice_activity_events, bind, lift.
  rewrite Hs. reflexivity.
Qed.

Lemma short_buffer_raises_witness :
  (len three_bytes < 5)%Z /\
  (len (@nil byte) < 5)%Z /\
  transcribe_streaming_voice_activity_events (fun _ => []) "p"%string
      three_bytes initial_state
    = (Raise ValueError, initial_state) /\
  transcribe_streaming_voice_activity_events (fun _ => []) "p"%string
      [] initial_state
    = (Raise ValueError, initial_state).
Proof.
  assert (H3 : (len three_bytes < 5)%Z) by reflexivity.
  assert (H0 : (len (@nil byte) < 5)%Z) by reflexivity.
  split; [exact H3|]. split; [exact H0|]. split.
  - exact (proj2 (proj2 (short_buffer_raises (fun _ => []) "p"%string
                           three_bytes initial_state H3))).
  - exact (proj2 (proj2 (short_buffer_raises (fun _ => []) "p"%string
                           [] initial_state H0))).
Defined.

(** ** The request stream *)

Lemma audio_request_not_config (r : StreamingRecognizeRequest) :
  is_audio_request r = true -> is_config_request r = false.
Proof.
  unfold is_audio_request, is_config_request.
  destruct (payload r); congruence.
Qed.

Lemma audio_requests_are_audio (chunks : list bytes) :
  forallb is_audio_request (audio_requests chunks) = true /\
  map audio_of (audio_requests chunks) = map Some chunks.
Proof.
  induction chunks as [|a chunks [IH1 IH2]]; [split; reflexivity|].
  simpl. rewrite IH1, IH2. split; reflexivity.
Qed.

Lemma filter_all {A : Type} (f : A -> bool) (l : list A) :
  forallb f l = true -> filter f l = l.
Proof.
  induction l as [|x l IH]; simpl; [reflexivity|].
  intros H. apply andb_true_iff in H. destruct H as [Hx Hl].
  rewrite Hx, IH by exact Hl. reflexivity.
Qed.

Lemma filter_none {A : Type} (f g : A -> bool) (l : list A) :
  (forall x, g x = true -> f x = false) ->
  forallb g l = true -> filter f l = [].
Proof.
  intros Hfg. induction l as [|x l IH]; simpl; [reflexivity|].
  intros H. apply andb_true_iff in H. destruct H as [Hx Hl].
  rewrite (Hfg x Hx). now apply IH.
Qed.

(** C3. When [len(content) // 5 > 0], the number of chunks is
    [ceil (L / chunk_length)], every chunk but the last has exactly
    [chunk_length] bytes, and the last chunk, which is never empty, is
    shorter than [chunk_length] exactly when [chunk_length] does not divide
    [L].  One audio request is built per chunk and carries that chunk:
    the audio requests of the request stream are these, so that their
    number is [ceil (L / chunk_length)] as well. *)
Theorem stream_count_and_lengths (content : bytes) :
  (0 < chunk_length content)%Z ->
  exists chunks,
    stream content = Return chunks /\
    len chunks = ceil_div (len content) (chunk_length content) /\
    len (audio_requests chunks) = len chunks /\
    map audio_of (audio_requests chunks) = map Some chunks /\
    (forall project_id,
       filter is_audio_request
         (requests (config_request project_id) (audio_requests chunks))
       = audio_requests chunks /\
       len (filter is_audio_request
              (requests (config_request project_id) (audio_requests chunks)))
       = ceil_div (len content) (chunk_length content)) /\
    (forall i, i + 1 < length chunks ->
       len (nth i chunks []) = chunk_length content) /\
    (0 < len (nth (length chunks - 1) chunks []) <= chunk_length content)%Z /\
    ((len (nth (length chunks - 1) chunks []) < chunk_length content)%Z <->
     (len content mod chunk_length content <> 0)%Z).
Proof.
  intros Hc.
  destruct (stream_chunk_count content Hc)
    as (chunks & Hs & Hn & Ha & Hmid & Hlast & Hiff).
  destruct (audio_requests_are_audio chunks) as [Haudio Hpayload].
  exists chunks.
  split; [exact Hs|]. split; [exact Hn|]. split; [exact Ha|].
  split; [exact Hpayload|].
  split; [|split; [exact Hmid | split; [exact Hlast | exact Hiff]]].
  intros project_id.
  assert (E : filter is_audio_request
                (requests (config_request project_id) (audio_requests chunks))
              = audio_requests chunks).
  { unfold requests. simpl. now apply filter_all. }
  split; [exact E|]. now rewrite E, Ha.
Qed.

Lemma stream_count_and_lengths_witness :
  (0 < chunk_length seven_bytes)%Z /\
  exists chunks,
    stream seven_bytes = Return chunks /\
    len chunks = ceil_div (len seven_bytes) (chunk_length seven_bytes) /\
    len (filter is_audio_request
           (requests (config_request "p") (audio_requests chunks)))
    = ceil_div (len seven_bytes) (chunk_length seven_bytes).
Proof.
  assert (H : (0 < chunk_length seven_bytes)%Z) by reflexivity.
  split; [exact H|].
  destruct (stream_count_and_lengths seven_bytes H)
    as (chunks & Hs & Hn & _ & _ & Hreq & _).
  exists chunks. split; [exact Hs|]. split; [exact Hn|].
  exact (proj2 (Hreq "p"%string)).
Defined.

(** C2. The generator applied to a configuration request and to audio
    requests yields the configuration request first and only there, and
    then the audio requests as they were given: same elements, same
    order, nothing added or left out. *)
Theorem requests_config_first
    (config : StreamingRecognizeRequest)
    (audio : list StreamingRecognizeRequest) :
  is_config_request config = true ->
  forallb is_audio_request audio = true ->
  hd_error (requests config audio) = Some config /\
  tl (requests config audio) = audio /\
  (forall i r, nth_error (requests config audio) i = Some r ->
               is_config_request r = true -> i = 0) /\
  (forall i, nth_error (requests config audio) (S i) = nth_error audio i) /\
  filter is_config_request (requests config audio) = [config] /\
  filter is_audio_request (requests config audio) = audio.
Proof.
  intros Hconfig Haudio. unfold requests.
  split; [reflexivity|]. split; [reflexivity|]. split; [|split; [|split]].
  - intros [|i] r Hnth Hr; [reflexivity|]. simpl in Hnth.
    apply nth_error_In in Hnth.
    rewrite forallb_forall in Haudio.
    apply Haudio, audio_request_not_config in Hnth. congruence.
  - reflexivity.
  - simpl. rewrite Hconfig. f_equal.
    now apply (filter_none _ is_audio_request), Haudio;
      apply audio_request_not_config.
  - simpl. assert (E : is_audio_request config = false).
    { unfold is_audio_request, is_config_request in *.
      destruct (payload config); congruence. }
    rewrite E. now apply filter_all.
Qed.

Lemma requests_config_first_witness :
  is_config_request (config_request "p") = true /\
  forallb is_audio_request (audio_requests [[x00]; [x01; x02]]) = true /\
  hd_error (requests (config_request "p")
              (audio_requests [[x00]; [x01; x02]]))
    = Some (config_request "p") /\
  tl (requests (config_request "p") (audio_requests [[x00]; [x01; x02]]))
    = audio_requests [[x00]; [x01; x02]].
Proof.
  assert (H1 : is_config_request (config_request "p") = true)
    by reflexivity.
  assert (H2 : forallb is_audio_request
                 (audio_requests [[x00]; [x01; x02]]) = true)
    by reflexivity.
  split; [exact H1|]. split; [exact H2|].
  destruct (requests_config_first _ _ H1 H2) as (Hhd & Htl & _).
  split; assumption.
Defined.

(** C8. For every project identifier the configuration request names the
    recognizer [projects/<p>/locations/global/recognizers/_] and carries a
    recognition config with automatic decoding, the language codes
    [["en-US"]] and the model ["long"], with voice-activity events
    enabled; it is the one configuration request of the stream built
    from any chunks. *)
Theorem config_request_fields (project_id : string) :
  recognizer (config_request project_id)
    = ("projects/" ++ project_id ++ "/locations/global/recognizers/_")%string /\
  (exists sc,
     payload (config_request project_id) = streaming_config sc /\
     decoding (config sc) = auto_decoding_config AutoDetectDecodingConfig_ctor /\
     language_codes (config sc) = ["en-US"%string] /\
     model (config sc) = "long"%string /\
     enable_voice_activity_events (streaming_features sc) = true) /\
  (forall chunks,
     filter is_config_request
       (requests (config_request project_id) (audio_requests chunks))
     = [config_request project_id]).
Proof.
  split; [reflexivity|]. split.
  - exists streaming_config_value. repeat split.
  - intros chunks. simpl. f_equal.
    apply (filter_none _ is_audio_request).
    + exact audio_request_not_config.
    + apply audio_requests_are_audio.
Qed.

(** ** The response loop *)

Lemma state_eta (s : state) :
  {| responses := responses s; stdout := stdout s ++ []; wire := wire s |} = s.
Proof. destruct s. simpl. now rewrite app_nil_r. Qed.

Lemma for_each_app {A : Type} (body : A -> M unit) (l1 l2 : list A) (s : state) :
  for_each (l1 ++ l2) body s = (for_each l1 body ;; for_each l2 body) s.
Proof.
  revert s. induction l1 as [|x l1 IH]; intros s; simpl.
  - reflexivity.
  - unfold bind at 1 2 3. destruct (body x s) as [[[]|e] s']; [|reflexivity].
    apply IH.
Qed.

(** The inner loop touches the state only by printing, and what it prints
    and how it ends is read off the results. *)
Lemma inner_loop_run (rs : list StreamingRecognitionResult) (s : state) :
  for_each rs print_transcript s =
  (fst (transcript_lines rs),
   {| responses := responses s;
      stdout := stdout s ++ snd (transcript_lines rs);
      wire := wire s |}).
Proof.
  revert s. induction rs as [|result rs IH]; intros s; simpl.
  - unfold ret. now rewrite state_eta.
  - unfold bind, print_transcript, lift, py_getitem. simpl.
    destruct (alternatives result) as [|top rest]; simpl.
    + now rewrite state_eta.
    + unfold bind, print. rewrite IH. simpl. now rewrite <- app_assoc.
Qed.

Lemma loop_body_run (response : StreamingRecognizeResponse) (s : state) :
  loop_body response s =
  (fst (transcript_lines (results response)),
   {| responses := responses s ++ [response];
      stdout := stdout s ++ event_lines (speech_event_type response)
                  ++ snd (transcript_lines (results response));
      wire := wire s |}).
Proof.
  unfold loop_body, bind, responses_append, event_lines.
  destruct (speech_event_type response); simpl;
    rewrite inner_loop_run; simpl; rewrite <- ?app_assoc; reflexivity.
Qed.

Lemma response_run_eq (response : StreamingRecognizeResponse) :
  outcome_of_response response = fst (transcript_lines (results response)) /\
  lines_of_response response =
    event_lines (speech_event_type response)
      ++ snd (transcript_lines (results response)).
Proof.
  unfold outcome_of_response, lines_of_response.
  rewrite loop_body_run. split; reflexivity.
Qed.

Lemma transcript_lines_outcome (rs : list StreamingRecognitionResult) :
  fst (transcript_lines rs) =
  if forallb has_alternative rs then Return tt else Raise IndexError.
Proof.
  induction rs as [|result rs IH]; simpl; [reflexivity|].
  unfold has_alternative at 1.
  destruct (alternatives result); simpl; [reflexivity | exact IH].
Qed.

Lemma outcome_of_response_eq (response : StreamingRecognizeResponse) :
  outcome_of_response response =
  if well_formed response then Return tt else Raise IndexError.
Proof.
  rewrite (proj1 (response_run_eq response)). apply transcript_lines_outcome.
Qed.

(** One turn of the loop: the state it leaves depends on the state it
    found only through what was already there. *)
Lemma loop_body_step (response : StreamingRecognizeResponse) (s : state) :
  loop_body response s =
  (outcome_of_response response,
   {| responses := responses s ++ [response];
      stdout := stdout s ++ lines_of_response response;
      wire := wire s |}).
Proof.
  destruct (response_run_eq response) as [-> ->]. apply loop_body_run.
Qed.

Lemma loop_run_ok (rs : list StreamingRecognizeResponse) (s : state) :
  forallb well_formed rs = true ->
  for_each rs loop_body s =
  (Return tt,
   {| responses := responses s ++ rs;
      stdout := stdout s ++ flat_map lines_of_response rs;
      wire := wire s |}).
Proof.
  revert s. induction rs as [|r rs IH]; intros s Hwf; simpl.
  - unfold ret. destruct s; simpl. now rewrite !app_nil_r.
  - simpl in Hwf. apply andb_true_iff in Hwf. destruct Hwf as [Hr Hrs].
    unfold bind. rewrite loop_body_step, outcome_of_response_eq, Hr.
    rewrite IH by exact Hrs. simpl. now rewrite <- !app_assoc.
Qed.

Lemma loop_run_fail (pre post : list StreamingRecognizeResponse)
    (r : StreamingRecognizeResponse) (s : state) :
  forallb well_formed pre = true ->
  well_formed r = false ->
  for_each (pre ++ r :: post) loop_body s =
  (Raise IndexError,
   {| responses := responses s ++ pre ++ [r];
      stdout := stdout s ++ flat_map lines_of_response pre
                  ++ lines_of_response r;
      wire := wire s |}).
Proof.
  intros Hpre Hr. rewrite for_each_app. unfold bind at 1.
  rewrite loop_run_ok by exact Hpre. simpl. unfold bind.
  rewrite loop_body_step, outcome_of_response_eq, Hr. simpl.
  now rewrite <- !app_assoc.
Qed.

(** A response list is either well formed throughout or splits at its
    first response with a result that has no alternative. *)
Lemma first_ill_formed (rs : list StreamingRecognizeResponse) :
  forallb well_formed rs = false ->
  exists pre r post,
    rs = pre ++ r :: post /\
    forallb well_formed pre = true /\ well_formed r = false.
Proof.
  induction rs as [|x rs IH]; simpl; [discriminate|].
  destruct (well_formed x) eqn:Hx; simpl.
  - intros H. destruct (IH H) as (pre & r & post & -> & Hpre & Hr).
    exists (x :: pre), r, post. simpl. rewrite Hx, Hpre. now repeat split.
  - intros _. exists [], x, rs. now repeat split.
Qed.

Lemma consume_ok (rs : list StreamingRecognizeResponse) (s : state) :
  forallb well_formed rs = true ->
  consume_response_stream rs s =
  (Return rs,
   {| responses := rs;
      stdout := stdout s ++ flat_map lines_of_response rs;
      wire := wire s |}).
Proof.
  intros Hwf. unfold consume_response_stream, bind at 1, responses_reset.
  unfold bind. rewrite loop_run_ok by exact Hwf. reflexivity.
Qed.

Lemma consume_fail (pre post : list StreamingRecognizeResponse)
    (r : StreamingRecognizeResponse) (s : state) :
  forallb well_formed pre = true ->
  well_formed r = false ->
  consume_response_stream (pre ++ r :: post) s =
  (Raise IndexError,
   {| responses := pre ++ [r];
      stdout := stdout s ++ flat_map lines_of_response pre
                  ++ lines_of_response r;
      wire := wire s |}).
Proof.
  intros Hpre Hr. unfold consume_response_stream, bind at 1, responses_reset.
  unfold bind. rewrite loop_run_fail by assumption. reflexivity.
Qed.

(** ** The loop over a transport-backed iterator *)

Lemma state_eta_all (s : state) :
  {| responses := responses s ++ [];
     stdout := stdout s ++ [];
     wire := wire s ++ [] |} = s.
Proof. destruct s. simpl. now rewrite !app_nil_r. Qed.

(** Events without a failure that deliver well-formed responses all
    happen: the responses are handled in order, the pulls take the
    requests in generator order, and the loop goes on with what is left. *)
Lemma iterate_app (before : list transport_event) :
  forall (rest : list transport_event)
         (pending : list StreamingRecognizeRequest) (s : state),
  no_failure before = true ->
  forallb well_formed (delivered before) = true ->
  iterate (before ++ rest) pending s =
  iterate rest (skipn (pulls before) pending)
    {| responses := responses s ++ delivered before;
       stdout := stdout s ++ flat_map lines_of_response (delivered before);
       wire := wire s ++ firstn (pulls before) pending |}.
Proof.
  induction before as [|event before IH]; intros rest pending s Hnf Hwf.
  - simpl. now rewrite state_eta_all.
  - destruct event as [|response|]; simpl in *.
    + destruct pending as [|request later].
      * rewrite IH by assumption. now rewrite firstn_nil, skipn_nil.
      * unfold bind, send. rewrite IH by assumption. simpl.
        now rewrite <- app_assoc.
    + apply andb_true_iff in Hwf. destruct Hwf as [Hr Hwf].
      unfold bind. rewrite loop_body_step, outcome_of_response_eq, Hr.
      rewrite IH by assumption. simpl. now rewrite <- !app_assoc.
    + discriminate Hnf.
Qed.

Lemma iterate_ok (events : list transport_event)
    (pending : list StreamingRecognizeRequest) (s : state) :
  no_failure events = true ->
  forallb well_formed (delivered events) = true ->
  iterate events pending s =
  (Return tt,
   {| responses := responses s ++ delivered events;
      stdout := stdout s ++ flat_map lines_of_response (delivered events);
      wire := wire s ++ firstn (pulls events) pending |}).
Proof.
  intros Hnf Hwf. rewrite <- (app_nil_r events) at 1.
  now rewrite iterate_app.
Qed.

(** A run over events that only deliver is the loop over the list of the
    responses. *)
Lemma iterate_deliveries (rs : list StreamingRecognizeResponse)
    (pending : list StreamingRecognizeRequest) (s : state) :
  iterate (map Deliver rs) pending s = for_each rs loop_body s.
Proof.
  revert s. induction rs as [|r rs IH]; intros s; simpl; [reflexivity|].
  unfold bind. destruct (loop_body r s) as [[[]|e] s']; [apply IH|reflexivity].
Qed.

(** Whatever the events, the wire receives a prefix of the request
    generator and nothing else. *)
Lemma iterate_wire_prefix (events : list transport_event) :
  forall (pending : list StreamingRecognizeRequest) (s : state),
  exists k, wire (snd (iterate events pending s)) = wire s ++ firstn k pending.
Proof.
  induction events as [|event events IH]; intros pending s.
  - exists 0. simpl. now rewrite app_nil_r.
  - destruct event as [|response|]; simpl.
    + destruct pending as [|request later].
      * destruct (IH [] s) as [k Hk]. exists 0. rewrite Hk.
        now rewrite firstn_nil.
      * unfold bind, send.
        destruct (IH later
                    {| responses := responses s; stdout := stdout s;
                       wire := wire s ++ [request] |}) as [k Hk].
        exists (S k). rewrite Hk. simpl. now rewrite <- app_assoc.
    + unfold bind. rewrite loop_body_step.
      destruct (outcome_of_response response) as [[]|e].
      * destruct (IH pending
                    {| responses := responses s ++ [response];
                       stdout := stdout s ++ lines_of_response response;
                       wire := wire s |}) as [k Hk].
        exists k. exact Hk.
      * exists 0. simpl. now rewrite app_nil_r.
    + exists 0. unfold lift. simpl. now rewrite app_nil_r.
Qed.

(** The function is the chunking step, then the call of the transport,
    then the response loop. *)
Lemma transcribe_run
    (service : list StreamingRecognizeRequest -> list transport_event)
    (project_id : string) (content : bytes) (chunks : list bytes) (s : state) :
  stream content = Return chunks ->
  transcribe_streaming_voice_activity_events service project_id content s =
  (responses_reset ;;
   iterate
     (service (requests (config_request project_id) (audio_requests chunks)))
     (requests (config_request project_id) (audio_requests chunks)) ;;
   responses_get) s.
Proof.
  intros Hs. unfold transcribe_streaming_voice_activity_events.
  unfold bind at 1, lift. rewrite Hs. reflexivity.
Qed.

(** C4, as stated, fails: on a response whose only result has no
    alternative the loop raises [IndexError], so no list is returned. *)
Lemma consume_returns_all_counterexample :
  consume_response_stream [empty_result_response] initial_state
    = (Raise IndexError,
       {| responses := [empty_result_response]; stdout := []; wire := [] |}) /\
  ~ (exists s',
       consume_response_stream [empty_result_response] initial_state
       = (Return [empty_result_response], s')).
Proof.
  split; [reflexivity|]. intros [s' H]. discriminate H.
Qed.

(** C4, amended.  For every finite sequence of responses in which each
    result has at least one alternative, the loop returns the list of
    exactly those responses in arrival order, and that list is what the
    function returns to its caller: the responses the transport delivered
    before it closed the stream, however it interleaved them with its
    pulls of requests. *)
Theorem consume_returns_all
    (service : list StreamingRecognizeRequest -> list transport_event)
    (project_id : string) (content : bytes)
    (rs : list StreamingRecognizeResponse) (s : state) :
  (forallb well_formed rs = true ->
   exists s',
     consume_response_stream rs s = (Return rs, s') /\ responses s' = rs) /\
  ((0 < chunk_length content)%Z ->
   (forall reqs,
      no_failure (service reqs) = true /\
      forallb well_formed (delivered (service reqs)) = true) ->
   exists chunks s',
     stream content = Return chunks /\
     transcribe_streaming_voice_activity_events service project_id content s
     = (Return (delivered (service (requests (config_request project_id)
                                      (audio_requests chunks)))), s') /\
     responses s'
     = delivered (service (requests (config_request project_id)
                             (audio_requests chunks)))).
Proof.
  split.
  - intros Hwf. rewrite consume_ok by exact Hwf. eexists. split; reflexivity.
  - intros Hc Hwf.
    destruct (stream_shape content Hc) as (c & n & _ & _ & _ & _ & Hs).
    exists (windows content c n). eexists.
    split; [exact Hs|].
    rewrite (transcribe_run _ _ _ _ _ Hs).
    unfold bind at 1, responses_reset. unfold bind.
    rewrite iterate_ok by apply Hwf. split; reflexivity.
Qed.

Lemma consume_returns_all_witness :
  forallb well_formed [begin_response; transcript_response "hi"; end_response]
    = true /\
  (0 < chunk_length seven_bytes)%Z /\
  (exists s',
     consume_response_stream
       [begin_response; transcript_response "hi"; end_response] initial_state
     = (Return [begin_response; transcript_response "hi"; end_response], s')) /\
  (exists chunks s',
     stream seven_bytes = Return chunks /\
     transcribe_streaming_voice_activity_events
       (fun _ => [Pull; Deliver begin_response; Pull; Deliver end_response])
       "p"%string seven_bytes initial_state
     = (Return [begin_response; end_response], s')).
Proof.
  assert (H1 : forallb well_formed
                 [begin_response; transcript_response "hi"; end_response]
               = true) by reflexivity.
  assert (H2 : (0 < chunk_length seven_bytes)%Z) by reflexivity.
  split; [exact H1|]. split; [exact H2|]. split.
  - destruct (proj1 (consume_returns_all (fun _ => []) "p"%string seven_bytes
                       _ initial_state) H1) as (s' & Hrun & _).
    exists s'. exact Hrun.
  - destruct (proj2 (consume_returns_all
                       (fun _ => [Pull; Deliver begin_response; Pull;
                                  Deliver end_response])
                       "p"%string seven_bytes [] initial_state)
                H2 (fun _ => conj eq_refl eq_refl))
      as (chunks & s' & Hs & Hrun & _).
    exists chunks, s'. split; assumption.
Defined.

(** C5. On the responses [Begin, result with top alternative "hello",
    End] the loop prints the speech-started line, the transcript line for
    "hello" and the speech-ended line, in this order and nothing else, and
    returns the list of the three responses. *)
Theorem consume_begin_hello_end
    (lower_ranked : list SpeechRecognitionAlternative) (s : state) :
  let hello :=
    {| results := [ {| alternatives := alternative "hello" :: lower_ranked |} ];
       speech_event_type := SPEECH_EVENT_TYPE_UNSPECIFIED |} in
  consume_response_stream [begin_response; hello; end_response] s =
  (Return [begin_response; hello; end_response],
   {| responses := [begin_response; hello; end_response];
      stdout := stdout s ++ ["Speech started."; "Transcript: hello";
                             "Speech ended."]%string;
      wire := wire s |}) /\
  length [begin_response; hello; end_response] = 3.
Proof.
  intros hello. split; [|reflexivity].
  rewrite consume_ok by reflexivity. reflexivity.
Qed.

Lemma ill_formed_iff (response : StreamingRecognizeResponse) :
  well_formed response = false <->
  exists result, In result (results response) /\ alternatives result = [].
Proof.
  unfold well_formed. induction (results response) as [|x rs IH]; simpl.
  - split; [discriminate | intros (result & [] & _)].
  - rewrite andb_false_iff, IH. unfold has_alternative. split.
    + intros [Hx | (result & Hin & Hnil)].
      * exists x. split; [now left|]. now destruct (alternatives x).
      * exists result. split; [now right | exact Hnil].
    + intros (result & [<- | Hin] & Hnil).
      * left. now rewrite Hnil.
      * right. now exists result.
Qed.

(** C9. The loop keeps no state from one response to the next.  A turn of
    the loop body ends the same way and prints the same lines from any two
    states, so what is printed for a response is a function of that
    response; over a whole sequence the output is the concatenation of the
    lines of the single responses.  A response that has both an event type
    and results gets the event line and the transcript lines. *)
Theorem response_handling_stateless :
  (forall response s1 s2,
     fst (loop_body response s1) = fst (loop_body response s2) /\
     exists lines,
       stdout (snd (loop_body response s1)) = stdout s1 ++ lines /\
       stdout (snd (loop_body response s2)) = stdout s2 ++ lines /\
       lines = lines_of_response response) /\
  (forall pre response post s,
     forallb well_formed (pre ++ response :: post) = true ->
     exists s',
       for_each (pre ++ response :: post) loop_body s = (Return tt, s') /\
       stdout s' = stdout s ++ flat_map lines_of_response pre
                     ++ lines_of_response response
                     ++ flat_map lines_of_response post) /\
  (forall text lower_ranked,
     lines_of_response
       {| results := [ {| alternatives := alternative text :: lower_ranked |} ];
          speech_event_type := SPEECH_ACTIVITY_BEGIN |}
     = ["Speech started."; "Transcript: " ++ text]%string /\
     lines_of_response
       {| results := [ {| alternatives := alternative text :: lower_ranked |} ];
          speech_event_type := SPEECH_ACTIVITY_END |}
     = ["Speech ended."; "Transcript: " ++ text]%string).
Proof.
  split; [|split].
  - intros response s1 s2. rewrite !loop_body_step. simpl.
    split; [reflexivity|]. now exists (lines_of_response response).
  - intros pre response post s Hwf.
    rewrite loop_run_ok by exact Hwf. eexists. split; [reflexivity|].
    simpl. now rewrite flat_map_app.
  - intros text lower_ranked. split; reflexivity.
Qed.

Lemma response_handling_stateless_witness :
  forallb well_formed
    ([begin_response] ++ transcript_response "hello" :: [end_response]) = true /\
  exists s',
    for_each ([begin_response] ++ transcript_response "hello" :: [end_response])
      loop_body initial_state = (Return tt, s') /\
    stdout s' = stdout initial_state
                  ++ flat_map lines_of_response [begin_response]
                  ++ lines_of_response (transcript_response "hello")
                  ++ flat_map lines_of_response [end_response].
Proof.
  assert (H : forallb well_formed
                ([begin_response] ++ transcript_response "hello"
                   :: [end_response]) = true) by reflexivity.
  split; [exact H|].
  exact (proj1 (proj2 response_handling_stateless)
           [begin_response] (transcript_response "hello") [end_response]
           initial_state H).
Defined.

(** C10. A result without alternatives makes the loop raise [IndexError]
    at the index [0].  This happens for the response [empty_result_response]
    and, in general, at the first response with such a result: the loop
    ends there, with that response already appended to [responses].  The
    loop returns exactly when every result of every response has an
    alternative. *)
Theorem empty_alternatives_index_error :
  (exists response,
     (exists result,
        In result (results response) /\ alternatives result = []) /\
     consume_response_stream [response] initial_state
     = (Raise IndexError,
        {| responses := [response]; stdout := []; wire := [] |})) /\
  (forall pre response post s,
     forallb well_formed pre = true ->
     (exists result,
        In result (results response) /\ alternatives result = []) ->
     exists s',
       consume_response_stream (pre ++ response :: post) s
       = (Raise IndexError, s') /\
       responses s' = pre ++ [response]) /\
  (forall rs s,
     (exists s', consume_response_stream rs s = (Return rs, s')) <->
     forallb well_formed rs = true).
Proof.
  split; [|split].
  - exists empty_result_response. split; [|reflexivity].
    exists {| alternatives := [] |}. split; [now left | reflexivity].
  - intros pre response post s Hpre Hnil. apply ill_formed_iff in Hnil.
    rewrite consume_fail by assumption. eexists. split; reflexivity.
  - intros rs s. split.
    + intros [s' Hrun].
      destruct (forallb well_formed rs) eqn:Hwf; [reflexivity|].
      destruct (first_ill_formed rs Hwf) as (pre & r & post & -> & Hpre & Hr).
      rewrite consume_fail in Hrun by assumption. discriminate Hrun.
    + intros Hwf. rewrite consume_ok by exact Hwf. now eexists.
Qed.

Lemma empty_alternatives_index_error_witness :
  forallb well_formed [begin_response] = true /\
  (exists result,
     In result (results empty_result_response) /\ alternatives result = []) /\
  exists s',
    consume_response_stream
      ([begin_response] ++ empty_result_response :: [end_response])
      initial_state
    = (Raise IndexError, s') /\
    responses s' = [begin_response] ++ [empty_result_response].
Proof.
  assert (H1 : forallb well_formed [begin_response] = true) by reflexivity.
  assert (H2 : exists result,
             In result (results empty_result_response)
             /\ alternatives result = []).
  { exists {| alternatives := [] |}. split; [now left | reflexivity]. }
  split; [exact H1|]. split; [exact H2|].
  exact (proj1 (proj2 empty_alternatives_index_error)
           [begin_response] empty_result_response [end_response]
           initial_state H1 H2).
Defined.

(** ** Runs on sample data *)

Example stream_ten_bytes :
  stream ten_bytes
  = Return [[x00; x01]; [x02; x03]; [x04; x05]; [x06; x07]; [x08; x09]].
Proof. reflexivity. Qed.

Example stream_eleven_bytes :
  stream (ten_bytes ++ [x0a])
  = Return [[x00; x01]; [x02; x03]; [x04; x05]; [x06; x07]; [x08; x09];
            [x0a]].
Proof. reflexivity. Qed.

Example transcribe_seven_bytes :
  transcribe_streaming_voice_activity_events
    (fun _ => [Pull; Pull; Deliver begin_response; Pull;
               Deliver (transcript_response "hello"); Deliver end_response])
    "my-project"%string seven_bytes initial_state
  = (Return [begin_response; transcript_response "hello"; end_response],
     {| responses :=
          [begin_response; transcript_response "hello"; end_response];
        stdout := ["Speech started."; "Transcript: hello";
                   "Speech ended."]%string;
        wire :=
          config_request "my-project" :: audio_requests [[x00]; [x01]] |}).
Proof. reflexivity. Qed.


(** * Further properties of the function *)

(** ** Transport failure and request stream of a whole call *)

Lemma stream_succeeds (content : bytes) :
  (5 <= len content)%Z -> exists chunks, stream content = Return chunks.
Proof.
  intros HL.
  assert (Hc : (0 < chunk_length content)%Z).
  { unfold chunk_length. apply Z.div_str_pos. lia. }
  destruct (stream_shape content Hc) as (c & n & _ & _ & _ & _ & Hw).
  now exists (windows content c n).
Qed.

Lemma windows_nonempty {A : Type} (l : list A) (c n : nat) (x : list A) :
  0 < c -> (n - 1) * c < length l -> In x (windows l c n) -> x <> [].
Proof.
  intros Hc Hlo Hin. unfold windows in Hin.
  apply in_map_iff in Hin. destruct Hin as (i & <- & Hi).
  apply in_seq in Hi. intros Hnil.
  apply (f_equal (@length A)) in Hnil. rewrite length_window in Hnil.
  simpl in Hnil. assert (i * c <= (n - 1) * c) by (apply Nat.mul_le_mono_r; lia).
  lia.
Qed.



(** X2. For a buffer of at least five bytes and any behaviour of the
    transport, whether the call returns or raises, what was put on the
    wire is a prefix of the request stream: the configuration request,
    then the audio requests in chunk order, whose payloads are non-empty
    and together are the buffer.  When the transport does not fail and
    every result has an alternative, the prefix holds as many requests as
    the transport pulled. *)
Theorem transcribe_wire
    (service : list StreamingRecognizeRequest -> list transport_event)
    (project_id : string) (content : bytes) (s : state) :
  (5 <= len content)%Z ->
  exists chunks,
    stream content = Return chunks /\
    (exists k,
       wire (snd (transcribe_streaming_voice_activity_events
                    service project_id content s))
       = wire s ++ firstn k (config_request project_id
                               :: audio_requests chunks)) /\
    (no_failure (service (request_stream project_id chunks)) = true ->
     forallb well_formed
       (delivered (service (request_stream project_id chunks))) = true ->
     wire (snd (transcribe_streaming_voice_activity_events
                  service project_id content s))
     = wire s ++ firstn (pulls (service (request_stream project_id chunks)))
                   (config_request project_id :: audio_requests chunks)) /\
    map audio_of (audio_requests chunks) = map Some chunks /\
    (forall chunk, In chunk chunks -> chunk <> []) /\
    concat chunks = content.
Proof.
  intros HL.
  assert (Hc : (0 < chunk_length content)%Z).
  { unfold chunk_length. apply Z.div_str_pos. lia. }
  destruct (stream_shape content Hc)
    as (c & n & _ & _ & Hpos & [Hlo Hhi] & Hs).
  exists (windows content c n). split; [exact Hs|].
  rewrite (transcribe_run _ _ _ _ _ Hs).
  fold (request_stream project_id (windows content c n)).
  set (reqs := request_stream project_id (windows content c n)).
  split; [|split; [|split; [|split]]].
  - unfold bind at 1, responses_reset. unfold bind.
    destruct (iterate_wire_prefix (service reqs) reqs
                {| responses := []; stdout := stdout s; wire := wire s |})
      as [k Hk].
    exists k. simpl in Hk.
    destruct (iterate (service reqs) reqs
                {| responses := []; stdout := stdout s; wire := wire s |})
      as [[[]|e] s1]; exact Hk.
  - intros Hnf Hwf. unfold bind at 1, responses_reset. unfold bind.
    rewrite iterate_ok by assumption. reflexivity.
  - apply audio_requests_are_audio.
  - intros chunk. now apply windows_nonempty.
  - now apply concat_windows.
Qed.

Lemma transcribe_wire_witness :
  (5 <= len six_bytes)%Z /\
  exists chunks,
    stream six_bytes = Return chunks /\
    (exists k,
       wire (snd (transcribe_streaming_voice_activity_events
                    (fun _ => [Pull; Deliver empty_result_response; Pull])
                    "p"%string six_bytes initial_state))
       = wire initial_state
           ++ firstn k (config_request "p" :: audio_requests chunks)) /\
    concat chunks = six_bytes.
Proof.
  assert (H : (5 <= len six_bytes)%Z) by (vm_compute; discriminate).
  split; [exact H|].
  destruct (transcribe_wire
              (fun _ => [Pull; Deliver empty_result_response; Pull])
              "p"%string six_bytes initial_state H)
    as (chunks & Hs & Hw & _ & _ & _ & Hcat).
  exists chunks. split; [exact Hs|]. split; assumption.
Defined.

(** ** What one response prints *)

Lemma event_lines_by_case (e : SpeechEventType) : event_lines e = event_line e.
Proof. destruct e; reflexivity. Qed.

Lemma transcript_lines_good (rs : list StreamingRecognitionResult) :
  forallb has_alternative rs = true ->
  transcript_lines rs = (Return tt, map transcript_line rs).
Proof.
  induction rs as [|result rs IH]; simpl; [reflexivity|].
  intros H. apply andb_true_iff in H. destruct H as [Hr Hrs].
  unfold has_alternative in Hr. unfold transcript_line at 1.
  destruct (alternatives result) as [|top rest]; [discriminate|].
  now rewrite (IH Hrs).
Qed.

Lemma transcript_lines_bad
    (good rest : list StreamingRecognitionResult)
    (bad : StreamingRecognitionResult) :
  forallb has_alternative good = true ->
  alternatives bad = [] ->
  transcript_lines (good ++ bad :: rest)
  = (Raise IndexError, map transcript_line good).
Proof.
  intros Hgood Hbad. induction good as [|result good IH]; simpl.
  - now rewrite Hbad.
  - simpl in Hgood. apply andb_true_iff in Hgood. destruct Hgood as [Hr Hg].
    unfold has_alternative in Hr. unfold transcript_line at 1.
    destruct (alternatives result) as [|top more]; [discriminate|].
    now rewrite (IH Hg).
Qed.

(** X3. For a response whose results all have an alternative, the loop
    body appends the response, prints the event line (one for a begin or
    an end event, none for the other event types) and then one transcript
    line per result, in result order, made from the first alternative
    only. *)
Theorem loop_body_prints_top_alternatives
    (response : StreamingRecognizeResponse) (s : state) :
  well_formed response = true ->
  loop_body response s =
  (Return tt,
   {| responses := responses s ++ [response];
      stdout := stdout s ++ event_line (speech_event_type response)
                  ++ map transcript_line (results response);
      wire := wire s |}).
Proof.
  intros Hwf. rewrite loop_body_run, event_lines_by_case.
  now rewrite (transcript_lines_good _ Hwf).
Qed.

Lemma loop_body_prints_top_alternatives_witness :
  well_formed two_alternatives_response = true /\
  loop_body two_alternatives_response initial_state =
  (Return tt,
   {| responses := [two_alternatives_response];
      stdout := ["Speech ended."; "Transcript: first";
                 "Transcript: third"]%string;
      wire := [] |}).
Proof.
  assert (H : well_formed two_alternatives_response = true) by reflexivity.
  split; [exact H|].
  exact (loop_body_prints_top_alternatives two_alternatives_response
           initial_state H).
Defined.

(** X4. When a result without alternatives follows results that have
    one, the loop body raises [IndexError] after it has appended the
    response and printed the event line and the transcript lines of the
    earlier results; the results after it are not printed. *)
Theorem loop_body_partial_output
    (response : StreamingRecognizeResponse)
    (good rest : list StreamingRecognitionResult)
    (bad : StreamingRecognitionResult) (s : state) :
  results response = good ++ bad :: rest ->
  forallb has_alternative good = true ->
  alternatives bad = [] ->
  loop_body response s =
  (Raise IndexError,
   {| responses := responses s ++ [response];
      stdout := stdout s ++ event_line (speech_event_type response)
                  ++ map transcript_line good;
      wire := wire s |}).
Proof.
  intros Hres Hgood Hbad. rewrite loop_body_run, event_lines_by_case, Hres.
  now rewrite (transcript_lines_bad good rest bad Hgood Hbad).
Qed.

Lemma loop_body_partial_output_witness :
  results partly_printed_response
  = [ {| alternatives := [alternative "kept"] |} ]
      ++ {| alternatives := [] |}
      :: [ {| alternatives := [alternative "lost"] |} ] /\
  loop_body partly_printed_response initial_state =
  (Raise IndexError,
   {| responses := [partly_printed_response];
      stdout := ["Speech started."; "Transcript: kept"]%string;
      wire := [] |}).
Proof.
  split; [reflexivity|].
  exact (loop_body_partial_output partly_printed_response
           [ {| alternatives := [alternative "kept"] |} ]
           [ {| alternatives := [alternative "lost"] |} ]
           {| alternatives := [] |} initial_state
           eq_refl eq_refl eq_refl).
Defined.

(** ** After a failure, and from one call to the next *)

(** X5. Once a response has a result without alternatives the loop stops:
    the outcome, the collected responses and the printed lines are the
    same whatever responses would have followed. *)
Theorem consume_stops_at_failure
    (pre post post' : list StreamingRecognizeResponse)
    (r : StreamingRecognizeResponse) (s : state) :
  forallb well_formed pre = true ->
  well_formed r = false ->
  consume_response_stream (pre ++ r :: post) s
  = consume_response_stream (pre ++ r :: post') s /\
  stdout (snd (consume_response_stream (pre ++ r :: post) s))
  = stdout s ++ flat_map lines_of_response (pre ++ [r]).
Proof.
  intros Hpre Hr. rewrite !consume_fail by assumption.
  split; [reflexivity|]. simpl.
  now rewrite flat_map_app; simpl; rewrite app_nil_r.
Qed.

Lemma consume_stops_at_failure_witness :
  forallb well_formed [begin_response] = true /\
  well_formed empty_result_response = false /\
  consume_response_stream
    ([begin_response] ++ empty_result_response :: [end_response])
    initial_state
  = consume_response_stream
      ([begin_response] ++ empty_result_response :: []) initial_state.
Proof.
  assert (H1 : forallb well_formed [begin_response] = true) by reflexivity.
  assert (H2 : well_formed empty_result_response = false) by reflexivity.
  split; [exact H1|]. split; [exact H2|].
  exact (proj1 (consume_stops_at_failure [begin_response] [end_response] []
                  empty_result_response initial_state H1 H2)).
Defined.

Lemma transcribe_ok
    (service : list StreamingRecognizeRequest -> list transport_event)
    (project_id : string) (content : bytes) (chunks : list bytes) (s : state) :
  stream content = Return chunks ->
  no_failure (service (request_stream project_id chunks)) = true ->
  forallb well_formed
    (delivered (service (request_stream project_id chunks))) = true ->
  transcribe_streaming_voice_activity_events service project_id content s =
  (Return (delivered (service (request_stream project_id chunks))),
   {| responses := delivered (service (request_stream project_id chunks));
      stdout := stdout s
                  ++ flat_map lines_of_response
                       (delivered (service (request_stream project_id chunks)));
      wire := wire s
                ++ firstn (pulls (service (request_stream project_id chunks)))
                     (request_stream project_id chunks) |}).
Proof.
  intros Hs Hnf Hwf. rewrite (transcribe_run _ _ _ _ _ Hs).
  fold (request_stream project_id chunks).
  unfold bind at 1, responses_reset. unfold bind.
  rewrite iterate_ok by assumption. reflexivity.
Qed.

(** X6. The list [responses] starts empty in every call.  Two calls in a
    row, both on buffers of at least five bytes, with a transport that
    does not fail and responses whose results all have an alternative:
    the second call returns only its own responses, the printed lines of
    the two calls follow each other in call order, and each call puts on
    the wire the requests its transport pulled from its own request
    stream. *)
Theorem transcribe_twice
    (service : list StreamingRecognizeRequest -> list transport_event)
    (project_1 project_2 : string) (content_1 content_2 : bytes) (s : state) :
  (5 <= len content_1)%Z ->
  (5 <= len content_2)%Z ->
  (forall reqs,
     no_failure (service reqs) = true /\
     forallb well_formed (delivered (service reqs)) = true) ->
  exists chunks_1 chunks_2,
    stream content_1 = Return chunks_1 /\
    stream content_2 = Return chunks_2 /\
    (transcribe_streaming_voice_activity_events service project_1 content_1 ;;
     transcribe_streaming_voice_activity_events service project_2 content_2) s
    = (Return (delivered (service (request_stream project_2 chunks_2))),
       {| responses := delivered (service (request_stream project_2 chunks_2));
          stdout :=
            stdout s
              ++ flat_map lines_of_response
                   (delivered (service (request_stream project_1 chunks_1)))
              ++ flat_map lines_of_response
                   (delivered (service (request_stream project_2 chunks_2)));
          wire :=
            wire s
              ++ firstn (pulls (service (request_stream project_1 chunks_1)))
                   (request_stream project_1 chunks_1)
              ++ firstn (pulls (service (request_stream project_2 chunks_2)))
                   (request_stream project_2 chunks_2) |}).
Proof.
  intros H1 H2 Hok.
  destruct (stream_succeeds content_1 H1) as [chunks_1 Hs1].
  destruct (stream_succeeds content_2 H2) as [chunks_2 Hs2].
  exists chunks_1, chunks_2. split; [exact Hs1|]. split; [exact Hs2|].
  unfold bind.
  rewrite (transcribe_ok _ _ _ _ _ Hs1) by apply Hok.
  rewrite (transcribe_ok _ _ _ _ _ Hs2) by apply Hok.
  simpl. now rewrite <- !app_assoc.
Qed.

Lemma transcribe_twice_witness :
  (5 <= len six_bytes)%Z /\
  (5 <= len seven_bytes)%Z /\
  exists chunks_1 chunks_2,
    stream six_bytes = Return chunks_1 /\
    stream seven_bytes = Return chunks_2 /\
    fst ((transcribe_streaming_voice_activity_events
            (fun reqs => [Pull; Deliver begin_response; Deliver end_response])
            "a"%string six_bytes ;;
          transcribe_streaming_voice_activity_events
            (fun reqs => [Pull; Deliver begin_response; Deliver end_response])
            "b"%string seven_bytes) initial_state)
    = Return [begin_response; end_response].
Proof.
  assert (H1 : (5 <= len six_bytes)%Z) by (vm_compute; discriminate).
  assert (H2 : (5 <= len seven_bytes)%Z) by (vm_compute; discriminate).
  split; [exact H1|]. split; [exact H2|].
  destruct (transcribe_twice
              (fun reqs => [Pull; Deliver begin_response; Deliver end_response])
              "a"%string "b"%string six_bytes seven_bytes initial_state
              H1 H2 (fun _ => conj eq_refl eq_refl))
    as (chunks_1 & chunks_2 & Hs1 & Hs2 & Hrun).
  exists chunks_1, chunks_2. split; [exact Hs1|]. split; [exact Hs2|].
  now rewrite Hrun.
Defined.

(** ** Small buffers *)



